(** * Responsive-image planning (gatsby-plugin-sharp) and the directory
      resource provider (gatsby-recipes)

    A shallow embedding of

    - [packages/gatsby-plugin-sharp/src/index.js]: [fluid], [fixed] and the
      queueing helpers they call;
    - [packages/gatsby-recipes/src/providers/fs/directory.js]: the
      [create], [read] and [update] operations,

    followed by the properties of the size lists, the [srcSet] / [sizes]
    strings and the directory operations.

    Numbers.  The sizing options are integers (the error messages of the
    source call them "positive int", "All ints in srcSetBreakpoints"), and
    so are the pixel dimensions of an image: they are [Z].  The candidate
    sizes are quotients such as [maxWidth / 4]: they are exact rationals
    [Q], compared with [==], [<] and [<=] of [Q].  A double represents
    these values exactly as long as they stay below 2^51, which every
    pixel size does.  The values a double has and a rational has not are
    written out where the source can produce them: [undefined] is [None],
    and a transform dimension can be [NotFinite]. *)

From Stdlib Require Import ZArith QArith Qround Lqa SetoidList SetoidPermutation.
From stdpp Require Import base decidable option strings list sorting gmap pretty.

Local Open Scope Z_scope.

(** ** JavaScript values and control flow *)

(** What a [throw] carries.  The two [Error]s of [fluid] keep the offending
    value of their message; [TypeError] is the property access on
    [undefined]; [FsError] is an errno of the [fs] module. *)
Inductive Errno := ENOENT | EEXIST | ENOTDIR | ENOTEMPTY.

Inductive Exception :=
  | DimensionError (fixedDimension : string) (value : Z)
  | BreakpointError (breakpoint : Z)
  | TypeError
  | FsError (code : Errno).

(** A call either returns or throws. *)
Inductive outcome (A : Type) :=
  | Returned (a : A)
  | Thrown (e : Exception).
Arguments Returned {A} a.
Arguments Thrown {A} e.

#[global] Instance outcome_ret : MRet outcome := fun A a => Returned a.
#[global] Instance outcome_bind : MBind outcome := fun A B k m =>
  match m with
  | Returned a => k a
  | Thrown e => Thrown e
  end.

(** A numeric property of a transform object: absent, a number that is
    not finite ([NaN], [Infinity]), or an integer (every number the source
    stores there went through [Math.round]). *)
Inductive jsnum :=
  | undefined
  | NotFinite
  | Int (z : Z).

(** [if (v)] on a [jsnum]. *)
Definition truthy (v : jsnum) : bool :=
  match v with
  | Int z => negb (z =? 0)
  | _ => false
  end.

(** [Math.round]: the nearest integer, halves towards +infinity. *)
Definition Math_round (x : Q) : Z := Qfloor (x + (1 # 2))%Q.

(** Decidable order of the rationals, for [filter], [merge_sort] and
    [bool_decide]. *)
#[global] Instance Qeq_decision (x y : Q) : Decision (x == y)%Q := Qeq_dec x y.
#[global] Instance Qlt_decision (x y : Q) : Decision (x < y)%Q :=
  match Qlt_le_dec x y with
  | left H => left H
  | right H => right (Qle_not_lt _ _ H)
  end.
#[global] Instance Qle_decision (x y : Q) : Decision (x <= y)%Q :=
  match Qlt_le_dec y x with
  | left H => right (Qlt_not_le _ _ H)
  | right H => left H
  end.
#[global] Instance Qle_total : Total Qle :=
  fun x y => match Qlt_le_dec x y with
             | left H => or_introl (Qlt_le_weak _ _ H)
             | right H => or_intror H
             end.
#[global] Instance Qle_trans' : Transitive Qle := Qle_trans.

(** [array.includes(x)] and [array.findIndex(y => y === x)] on numbers;
    [findIndex] answers [-1] when nothing matches, and [array[i]] is
    [undefined] outside the array. *)
Definition includes (l : list Q) (x : Q) : bool :=
  bool_decide (Exists (fun y => y == x)%Q l).

Fixpoint findIndex {A} (p : A -> bool) (l : list A) : Z :=
  match l with
  | [] => -1
  | x :: l' => if p x then 0 else
      let i := findIndex p l' in if i <? 0 then -1 else 1 + i
  end.

Definition at_index {A} (l : list A) (i : Z) : option A :=
  if i <? 0 then None else l !! Z.to_nat i.

(** [_.sortBy(numbers)]: ascending. *)
Definition sortBy (l : list Q) : list Q := merge_sort Qle l.

(** [strings.join(`,\n`)]. *)
Definition comma_newline : string :=
  "," +:+ String (Ascii.ascii_of_nat 10) EmptyString.
Definition join (sep : string) (l : list string) : string := String.concat sep l.

(** ** Data of gatsby-plugin-sharp *)

(** [sharp.fit]. *)
Inductive Fit := fit_cover | fit_contain | fit_fill | fit_inside | fit_outside.

#[global] Instance Fit_eq_dec : EqDecision Fit.
Proof. solve_decision. Defined.

(** [{ width, height }] of a source image, as [sharp(..).metadata()] and
    [probe-image-size] report it. *)
Module Dimensions.
Record t := mk { width : Z; height : Z }.
End Dimensions.

(** The source file node. [dimensions] is what [getImageSize] /
    [getImageSizeAsync] answer for it: [None] when the probe cannot
    determine them. *)
Module File.
Record t := mk {
  absolutePath : string;
  name : string;
  base : string;
  contentDigest : string;
  dimensions : option Dimensions.t;
}.
End File.

(** The options record [healOptions] returns, with the fields [fluid] and
    [fixed] read.  [srcSetBreakpoints] is [None] for a missing array. *)
Module Options.
Record t := mk {
  width : option Z;
  height : option Z;
  maxWidth : option Z;
  maxHeight : option Z;
  fit : Fit;
  srcSetBreakpoints : option (list Z);
  pathPrefix : option string;
  sizes : option string;
  toFormat : string;
}.
End Options.

(** A transform object ([arrrgs]): the arguments of one resize. *)
Module Args.
Record t := mk {
  width : jsnum;
  height : jsnum;
  fit : Fit;
  toFormat : string;
  pathPrefix : option string;
}.
Definition set_width (v : jsnum) (a : t) : t :=
  mk v (height a) (fit a) (toFormat a) (pathPrefix a).
Definition set_height (v : jsnum) (a : t) : t :=
  mk (width a) v (fit a) (toFormat a) (pathPrefix a).
Definition set_pathPrefix (v : option string) (a : t) : t :=
  mk (width a) (height a) (fit a) (toFormat a) v.
End Args.

(** What [getDimensionsAndAspectRatio] answers. *)
Module Size.
Record t := mk { width : Z; height : Z; aspectRatio : Q }.
End Size.

(** One element of the array [batchQueueImageResizing] returns. *)
Module Image.
Record t := mk {
  src : string;
  width : Z;
  height : Z;
  aspectRatio : Q;
  originalName : string;
}.
End Image.

(** The keys [fixedDimension] ranges over. *)
Inductive FluidDimension := key_maxWidth | key_maxHeight.
Inductive FixedDimension := key_width | key_height.

Definition FluidDimension_name (d : FluidDimension) : string :=
  match d with key_maxWidth => "maxWidth" | key_maxHeight => "maxHeight" end.

(** [options[fixedDimension]] and [dimensions[fixedDimension]]. *)
Definition fluid_option (o : Options.t) (d : FluidDimension) : option Z :=
  match d with
  | key_maxWidth => Options.maxWidth o
  | key_maxHeight => Options.maxHeight o
  end.

Definition fixed_option (o : Options.t) (d : FixedDimension) : option Z :=
  match d with
  | key_width => Options.width o
  | key_height => Options.height o
  end.

Definition fixed_dimension_of (dims : Dimensions.t) (d : FixedDimension) : Z :=
  match d with
  | key_width => Dimensions.width dims
  | key_height => Dimensions.height dims
  end.

(** [fixedDimension === `maxWidth` ? width : height]. *)
Definition intrinsic (metadata : Dimensions.t) (d : FluidDimension) : Z :=
  match d with
  | key_maxWidth => Dimensions.width metadata
  | key_maxHeight => Dimensions.height metadata
  end.

(** ** index.js *)

(** A warning of [console.warn] in [fixed]: the requested size, the file
    and the actual size its text is built from. *)
Inductive Warning :=
  | LargerThanImage (fixedDimension : FixedDimension) (requested : option Z)
      (absolutePath : string) (actual : Z).

(** What [fluid] returns.  The fields the properties below do not read
    are left out: the placeholders ([base64], [tracedSVG]), [src],
    [originalImg], [srcSetType] and [density]. *)
Module Fluid.
Record t := mk {
  aspectRatio : Q;
  srcSet : string;
  sizes : string;
  originalName : string;
  presentationWidth : Z;
  presentationHeight : Z;
}.
End Fluid.

(** What [fixed] returns, without the placeholders ([base64],
    [tracedSVG]). *)
Module Fixed.
Record t := mk {
  aspectRatio : Q;
  width : Z;
  height : Z;
  src : string;
  srcSet : string;
  originalName : string;
}.
End Fixed.

(** [x || y] on strings: the empty string is falsy. *)
Definition or_else (x : option string) (y : string) : string :=
  match x with
  | Some s => if String.eqb s EmptyString then y else s
  | None => y
  end.

(** [options.maxWidth ? Math.min(options.maxWidth, width) : undefined]:
    [undefined] and [0] are falsy. *)
Definition capped (v : option Z) (bound : Z) : option Z :=
  match v with
  | Some x => if x =? 0 then None else Some (Z.min x bound)
  | None => None
  end.

(** [size === v] for a number [size] and a [v] that may be [undefined]. *)
Definition same_number (size : Q) (v : option Z) : bool :=
  match v with
  | Some x => bool_decide (size == inject_Z x)%Q
  | None => false
  end.

(** [Math.round(size * (h / w))]: when [h] or [w] is [undefined] the
    product is [NaN], and a division by [0] gives [NaN] or an infinity,
    which [Math.round] returns unchanged. *)
Definition scaled (size : Q) (h w : option Z) : jsnum :=
  match h, w with
  | Some h, Some w =>
      if w =? 0 then NotFinite
      else Int (Math_round (size * (inject_Z h / inject_Z w)))
  | _, _ => NotFinite
  end.

(** The loop [options.srcSetBreakpoints.forEach(..)] over the array
    [fluidSizes]. *)
Fixpoint pushBreakpoints (fluidSizes : list Q) (breakpoints : list Z)
    : outcome (list Q) :=
  match breakpoints with
  | [] => Returned fluidSizes
  | breakpoint :: rest =>
      if breakpoint <? 1 then Thrown (BreakpointError breakpoint)
      else if includes fluidSizes (inject_Z breakpoint)
      then pushBreakpoints fluidSizes rest
      else pushBreakpoints (fluidSizes ++ [inject_Z breakpoint]) rest
  end.

Definition fluid_fixedDimension (o : Options.t) : FluidDimension :=
  match Options.maxWidth o with
  | None => key_maxHeight
  | Some _ => key_maxWidth
  end.

(** [options[fixedDimension]] and the intrinsic size on that axis. *)
Definition fluid_base (o : Options.t) : option Z :=
  fluid_option o (fluid_fixedDimension o).

Definition fluid_intrinsic (o : Options.t) (metadata : Dimensions.t) : Z :=
  intrinsic metadata (fluid_fixedDimension o).

(** The array [fluidSizes] once it is filled.  When
    [options[fixedDimension]] is [undefined], the entries made from it are
    [undefined] and [NaN]: [includes] never finds a breakpoint among them
    and the filter [size < ..] that follows drops them, so the list holds
    the numbers of the array only. *)
Definition fluidSizes (o : Options.t) : outcome (list Q) :=
  let base := fluid_base o in
  let standard :=
    match base with
    | Some b =>
        let b := inject_Z b in [b; b / 4; b / 2; b * 1.5; b * 2]%Q
    | None => []
    end in
  match Options.srcSetBreakpoints o with
  | None | Some [] => Returned standard
  | Some breakpoints =>
      pushBreakpoints (match base with Some b => [inject_Z b] | None => [] end)
        breakpoints
  end.

(** [fixedDimension === `maxWidth` ? maxWidth : maxHeight], of the capped
    [maxWidth] and [maxHeight]. *)
Definition fluid_densityOne (o : Options.t) (metadata : Dimensions.t) : option Z :=
  match fluid_fixedDimension o with
  | key_maxWidth => capped (Options.maxWidth o) (Dimensions.width metadata)
  | key_maxHeight => capped (Options.maxHeight o) (Dimensions.height metadata)
  end.

Definition fluid_imageWithDensityOneIndex (o : Options.t) (metadata : Dimensions.t)
    (filteredSizes : list Q) : Z :=
  findIndex (fun size => same_number size (fluid_densityOne o metadata)) filteredSizes.

(** The check of [options[fixedDimension]], then [filteredSizes] as it is
    after [_.sortBy]. *)
Definition fluid_filteredSizes (o : Options.t) (metadata : Dimensions.t)
    : outcome (list Q) :=
  let fixedDimension := fluid_fixedDimension o in
  match fluid_base o with
  | Some v =>
      if v <? 1 then Thrown (DimensionError (FluidDimension_name fixedDimension) v)
      else Returned ()
  | None => Returned ()
  end ≫= fun _ =>
  fluidSizes ← fluidSizes o;
  let bound := inject_Z (fluid_intrinsic o metadata) in
  let filteredSizes := filter (fun size => size < bound)%Q fluidSizes in
  Returned (sortBy (filteredSizes ++ [bound])).

Definition fixed_fixedDimension (o : Options.t) : FixedDimension :=
  match Options.width o with
  | None => key_height
  | Some _ => key_width
  end.

(** The array [sizes] of [fixed], again without the entries that are not
    numbers (they do not pass [size <= dimensions[fixedDimension]]). *)
Definition fixed_sizes (o : Options.t) : list Q :=
  match fixed_option o (fixed_fixedDimension o) with
  | Some b => let b := inject_Z b in [b; b * 1.5; b * 2]%Q
  | None => []
  end.

(** [filteredSizes] of [fixed] after the fallback, and its warnings. *)
Definition fixed_filteredSizes (file : File.t) (o : Options.t)
    (dimensions : Dimensions.t) : list Q * list Warning :=
  let fixedDimension := fixed_fixedDimension o in
  let bound := fixed_dimension_of dimensions fixedDimension in
  let filteredSizes := filter (fun size => size <= inject_Z bound)%Q (fixed_sizes o) in
  if (length filteredSizes =? 0)%nat
  then (filteredSizes ++ [inject_Z bound],
        [LargerThanImage fixedDimension (fixed_option o fixedDimension)
           (File.absolutePath file) bound])
  else (filteredSizes, []).

(** The [switch (i)] of [fixed]; [resolution] stays [undefined] past 2. *)
Definition resolution (i : nat) : string :=
  match i with
  | 0%nat => "1x"
  | 1%nat => "1.5x"
  | 2%nat => "2x"
  | _ => "undefined"
  end.

Section Sharp.
(** Helpers the file requires from [./plugin-options], [./process-file]
    and [./utils], and the URL encoder of the platform. *)
Variable createTransformObject : Options.t -> Args.t.
Variable createArgsDigest : Args.t -> string.
Variable getDimensionsAndAspectRatio : option Dimensions.t -> Args.t -> Size.t.
Variable encodeURIComponent : string -> string.

(** The fields of [prepareQueue]'s answer that [batchQueueImageResizing]
    copies into an image. *)
Definition prepareQueue (file : File.t) (args : Args.t) : Image.t :=
  let pathPrefix := Args.pathPrefix args in
  let options := Args.set_pathPrefix None args in
  let argsDigestShort := createArgsDigest options in
  let size := getDimensionsAndAspectRatio (File.dimensions file) options in
  let encodedImgSrc :=
    "/" +:+ encodeURIComponent (File.name file) +:+ "." +:+ Args.toFormat options in
  let digestDirPrefix := File.contentDigest file +:+ "/" +:+ argsDigestShort in
  let prefixedSrc :=
    or_else pathPrefix EmptyString +:+ "/static/" +:+ digestDirPrefix +:+ encodedImgSrc in
  {| Image.src := prefixedSrc;
     Image.width := Size.width size;
     Image.height := Size.height size;
     Image.aspectRatio := Size.aspectRatio size;
     Image.originalName := File.base file |}.

(** The images of [batchQueueImageResizing], one per transform and in
    their order; the job it creates goes to the host. *)
Definition batchQueueImageResizing (file : File.t) (transforms : list Args.t)
    : list Image.t :=
  map (prepareQueue file) transforms.

(** The body of [filteredSizes.map(size => ..)] in [fluid]; [maxWidth]
    and [maxHeight] are the capped values. *)
Definition fluid_transform (o : Options.t) (maxWidth maxHeight : option Z)
    (size : Q) : Args.t :=
  let arrrgs := createTransformObject o in
  let arrrgs :=
    match fluid_fixedDimension o with
    | key_maxWidth =>
        let arrrgs :=
          if truthy (Args.height arrrgs) then Args.set_height undefined arrrgs
          else arrrgs in
        Args.set_width (Int (Math_round size)) arrrgs
    | key_maxHeight =>
        let arrrgs :=
          if truthy (Args.width arrrgs) then Args.set_width undefined arrrgs
          else arrrgs in
        Args.set_height (Int (Math_round size)) arrrgs
    end in
  let arrrgs :=
    match Options.pathPrefix o with
    | Some p => if String.eqb p EmptyString then arrrgs else Args.set_pathPrefix (Some p) arrrgs
    | None => arrrgs
    end in
  match Options.maxWidth o, Options.maxHeight o with
  | Some _, Some _ =>
      if decide (Options.fit o = fit_inside)
      then Args.set_height (scaled size maxHeight maxWidth) arrrgs
      else Args.set_height
             (scaled size (Options.maxHeight o) (Options.maxWidth o)) arrrgs
  | _, _ => arrrgs
  end.

Definition fluid_transforms (o : Options.t) (metadata : Dimensions.t)
    (filteredSizes : list Q) : list Args.t :=
  let maxWidth := capped (Options.maxWidth o) (Dimensions.width metadata) in
  let maxHeight := capped (Options.maxHeight o) (Dimensions.height metadata) in
  map (fluid_transform o maxWidth maxHeight) filteredSizes.

Definition fluid_images (file : File.t) (o : Options.t) (metadata : Dimensions.t)
    (filteredSizes : list Q) : list Image.t :=
  batchQueueImageResizing file (fluid_transforms o metadata filteredSizes).

(** The default of the [sizes] attribute. *)
Definition default_sizes (presentationWidth : Z) : string :=
  "(max-width: " +:+ pretty presentationWidth +:+ "px) 100vw, "
  +:+ pretty presentationWidth +:+ "px".

(** [fluid], from the healed [options] on; [metadata] is [None] when
    [sharp(..).metadata()] rejects, and the answer [None] is [null]. *)
Definition fluid (file : File.t) (o : Options.t)
    (metadata : option Dimensions.t) : outcome (option Fluid.t) :=
  match metadata with
  | None => Returned None
  | Some metadata =>
      filteredSizes ← fluid_filteredSizes o metadata;
      let imageWithDensityOneIndex :=
        fluid_imageWithDensityOneIndex o metadata filteredSizes in
      let images := fluid_images file o metadata filteredSizes in
      let srcSet :=
        join comma_newline
          (map (fun image => Image.src image +:+ " " +:+ pretty (Image.width image) +:+ "w")
             images) in
      match at_index images imageWithDensityOneIndex, images !! 0%nat with
      | Some imageWithDensityOne, Some first =>
          let presentationWidth := Image.width imageWithDensityOne in
          let presentationHeight := Image.height imageWithDensityOne in
          let sizes := or_else (Options.sizes o) (default_sizes presentationWidth) in
          Returned (Some
            {| Fluid.aspectRatio := Image.aspectRatio first;
               Fluid.srcSet := srcSet;
               Fluid.sizes := sizes;
               Fluid.originalName := File.base file;
               Fluid.presentationWidth := presentationWidth;
               Fluid.presentationHeight := presentationHeight |})
      | _, _ => Thrown TypeError
      end
  end.

(** The body of [_.sortBy(filteredSizes).map(size => ..)] in [fixed]. *)
Definition fixed_transform (o : Options.t) (size : Q) : Args.t :=
  let arrrgs := createTransformObject o in
  let arrrgs :=
    match fixed_fixedDimension o with
    | key_width => Args.set_width (Int (Math_round size)) arrrgs
    | key_height => Args.set_height (Int (Math_round size)) arrrgs
    end in
  let arrrgs :=
    match Options.width o, Options.height o with
    | Some _, Some _ =>
        Args.set_height (scaled size (Options.height o) (Options.width o)) arrrgs
    | _, _ => arrrgs
    end in
  match Options.pathPrefix o with
  | Some p => if String.eqb p EmptyString then arrrgs else Args.set_pathPrefix (Some p) arrrgs
  | None => arrrgs
  end.

Definition fixed_transforms (file : File.t) (o : Options.t)
    (dimensions : Dimensions.t) : list Args.t :=
  map (fixed_transform o) (sortBy (fixed_filteredSizes file o dimensions).1).

(** [fixed], from the healed [options] on, with what it wrote to
    [console.warn].  [dimensions[fixedDimension]] throws when the probe
    found no dimensions. *)
Definition fixed (file : File.t) (o : Options.t)
    : outcome (Fixed.t * list Warning) :=
  match File.dimensions file with
  | None => Thrown TypeError
  | Some dimensions =>
      let warnings := (fixed_filteredSizes file o dimensions).2 in
      let transforms := fixed_transforms file o dimensions in
      let images := batchQueueImageResizing file transforms in
      match images !! 0%nat with
      | None => Thrown TypeError
      | Some first =>
          let srcSet :=
            join comma_newline
              (imap (fun i image => Image.src image +:+ " " +:+ resolution i) images) in
          Returned
            ({| Fixed.aspectRatio := Image.aspectRatio first;
                Fixed.width := Image.width first;
                Fixed.height := Image.height first;
                Fixed.src := Image.src first;
                Fixed.srcSet := srcSet;
                Fixed.originalName := File.base file |},
             warnings)
      end
  end.
End Sharp.

(** ** directory.js *)

(** The file system the provider runs on: what each existing path names.
    A path the map does not hold does not exist. *)
Inductive Node := Directory | RegularFile.

Module Context.
Record t := mk { root : string }.
End Context.

(** The resource a caller hands to [create] and [update], and the one
    [read] answers. *)
Module Descriptor.
Record t := mk { id : string; path : string }.
End Descriptor.

Module Resource.
Record t := mk { id : string; path : string; _message : string }.
End Resource.

Definition double_quote : string := String (Ascii.ascii_of_nat 34) EmptyString.

Definition message (path : string) : string :=
  "Created directory " +:+ double_quote +:+ path +:+ double_quote.

Section Directory.
(** [path.join] of Node, and the directories above a path, outermost
    first, as [path.dirname] gives them one by one. *)
Variable path_join : string -> string -> string.
Variable ancestors : string -> list string.

Definition makePath (root relativePath : string) : string :=
  path_join root relativePath.

(** [fs.accessSync(fullPath, fs.constants.F_OK)]: throws unless the path
    is visible. *)
Definition accessSync (fs : gmap string Node) (fullPath : string) : outcome () :=
  match fs !! fullPath with
  | Some _ => Returned ()
  | None => Thrown (FsError ENOENT)
  end.

Definition directoryExists (fs : gmap string Node) (fullPath : string) : bool :=
  match accessSync fs fullPath with
  | Returned _ => true
  | Thrown _ => false
  end.

(** One [mkdir] of [fs.ensureDir], which does not mind a directory that
    is there already. *)
Definition mkdir (fs : gmap string Node) (p : string) : outcome (gmap string Node) :=
  match fs !! p with
  | Some Directory => Returned fs
  | Some RegularFile => Thrown (FsError ENOTDIR)
  | None => Returned (<[p := Directory]> fs)
  end.

Fixpoint mkdirs (fs : gmap string Node) (paths : list string)
    : outcome (gmap string Node) :=
  match paths with
  | [] => Returned fs
  | p :: rest => fs' ← mkdir fs p; mkdirs fs' rest
  end.

(** [fs.ensureDir] of fs-extra: "Ensures that the directory exists.  If
    the directory structure does not exist, it is created." *)
Definition ensureDir (fs : gmap string Node) (fullPath : string)
    : outcome (gmap string Node) :=
  match fs !! fullPath with
  | Some Directory => Returned fs
  | Some RegularFile => Thrown (FsError EEXIST)
  | None => mkdirs fs (ancestors fullPath ++ [fullPath])
  end.

(** The operations are [async]: a rejected promise is [Thrown], a
    resolved one [Returned] with the value and the file system left. *)
Definition read (fs : gmap string Node) (context : Context.t) (id : string)
    : outcome (option Resource.t) :=
  let fullPath := makePath (Context.root context) id in
  if negb (directoryExists fs fullPath) then Returned None
  else
    Returned (Some {| Resource.id := id; Resource.path := id;
                      Resource._message := message id |}).

Definition create (fs : gmap string Node) (context : Context.t)
    (resource : Descriptor.t) : outcome (option Resource.t * gmap string Node) :=
  let directoryPath := Descriptor.path resource in
  let fullPath := makePath (Context.root context) directoryPath in
  fs' ← ensureDir fs fullPath;
  r ← read fs' context directoryPath;
  Returned (r, fs').

Definition update (fs : gmap string Node) (context : Context.t)
    (resource : Descriptor.t) : outcome (option Resource.t * gmap string Node) :=
  let fullPath := makePath (Context.root context) (Descriptor.id resource) in
  fs' ← ensureDir fs fullPath;
  r ← read fs' context (Descriptor.id resource);
  Returned (r, fs').
End Directory.

(** ** Vocabulary of the properties *)

(** No custom breakpoints: the array is missing or empty. *)
Definition standard_breakpoints (o : Options.t) : Prop :=
  Options.srcSetBreakpoints o = None \/ Options.srcSetBreakpoints o = Some [].

(** [arrrgs[fixedDimension]] in [fixed]. *)
Definition fixed_argument (a : Args.t) (d : FixedDimension) : jsnum :=
  match d with
  | key_width => Args.width a
  | key_height => Args.height a
  end.

(** ** Instances of the helpers, to run the model

    The helpers of the other files are parameters of the model.  These
    instances stand for them in the examples: a transform object that
    copies the options, a constant digest, the size a resize without
    cropping gives, and an encoder for names without reserved characters. *)
Definition of_option (v : option Z) : jsnum :=
  match v with
  | Some z => Int z
  | None => undefined
  end.

Definition example_createTransformObject (o : Options.t) : Args.t :=
  {| Args.width := of_option (Options.width o);
     Args.height := of_option (Options.height o);
     Args.fit := Options.fit o;
     Args.toFormat := Options.toFormat o;
     Args.pathPrefix := None |}.

Definition example_createArgsDigest (a : Args.t) : string := "a1b2c".

Definition example_getDimensionsAndAspectRatio (dimensions : option Dimensions.t)
    (a : Args.t) : Size.t :=
  match dimensions, Args.width a, Args.height a with
  | _, Int w, Int h => Size.mk w h (inject_Z w / inject_Z h)
  | Some d, Int w, _ =>
      let ratio := (inject_Z (Dimensions.width d) / inject_Z (Dimensions.height d))%Q in
      Size.mk w (Math_round (inject_Z w / ratio)) ratio
  | Some d, _, Int h =>
      let ratio := (inject_Z (Dimensions.width d) / inject_Z (Dimensions.height d))%Q in
      Size.mk (Math_round (inject_Z h * ratio)) h ratio
  | _, _, _ => Size.mk 0 0 0
  end.

Definition example_encodeURIComponent (s : string) : string := s.

Definition example_path_join (root relativePath : string) : string :=
  root +:+ "/" +:+ relativePath.

Definition example_ancestors (fullPath : string) : list string :=
  if String.eqb fullPath "/site/src/pages" then ["/site"; "/site/src"] else [].

Definition example_options : Options.t :=
  {| Options.width := None; Options.height := None;
     Options.maxWidth := None; Options.maxHeight := None;
     Options.fit := fit_cover; Options.srcSetBreakpoints := None;
     Options.pathPrefix := None; Options.sizes := None;
     Options.toFormat := "jpg" |}.

Definition with_maxWidth (v : Z) (o : Options.t) : Options.t :=
  Options.mk (Options.width o) (Options.height o) (Some v) (Options.maxHeight o)
    (Options.fit o) (Options.srcSetBreakpoints o) (Options.pathPrefix o)
    (Options.sizes o) (Options.toFormat o).


Definition with_width (v : Z) (o : Options.t) : Options.t :=
  Options.mk (Some v) (Options.height o) (Options.maxWidth o) (Options.maxHeight o)
    (Options.fit o) (Options.srcSetBreakpoints o) (Options.pathPrefix o)
    (Options.sizes o) (Options.toFormat o).



Definition with_sizes (v : string) (o : Options.t) : Options.t :=
  Options.mk (Options.width o) (Options.height o) (Options.maxWidth o)
    (Options.maxHeight o) (Options.fit o) (Options.srcSetBreakpoints o)
    (Options.pathPrefix o) (Some v) (Options.toFormat o).




(** A 1600x900 source, and a smaller one. *)
Definition example_metadata : Dimensions.t := Dimensions.mk 1600 900.

Definition example_file : File.t :=
  {| File.absolutePath := "/site/src/images/hero.png";
     File.name := "hero"; File.base := "hero.png";
     File.contentDigest := "0f9e8d";
     File.dimensions := Some example_metadata |}.

Definition small_file : File.t :=
  {| File.absolutePath := "/site/src/images/icon.png";
     File.name := "icon"; File.base := "icon.png";
     File.contentDigest := "7c6b5a";
     File.dimensions := Some (Dimensions.mk 300 200) |}.

(** * Properties *)

(** ** Lists of numbers *)

Section NumberLists.
Implicit Types (l : list Q) (x y : Q).

Lemma InA_Exists l x : InA Qeq x l <-> Exists (fun y => y == x)%Q l.
Proof.
  rewrite InA_alt, Exists_exists. split.
  - intros (y & Hxy & Hin). exists y. split; [by apply list_elem_of_In|by symmetry].
  - intros (y & Hin & Hxy). exists y. split; [by symmetry|by apply list_elem_of_In].
Qed.

Lemma includes_InA l x : includes l x = true <-> InA Qeq x l.
Proof. unfold includes. rewrite bool_decide_eq_true. symmetry. apply InA_Exists. Qed.

Lemma InA_filter (P : Q -> Prop) `{!forall x, Decision (P x)} l x :
  InA Qeq x (filter P l) -> InA Qeq x l.
Proof.
  rewrite !InA_alt. intros (y & Hxy & Hin). exists y. split; [done|].
  apply list_elem_of_In. apply list_elem_of_In in Hin.
  by apply list_elem_of_filter in Hin as [_ ?].
Qed.

Lemma NoDupA_filter (P : Q -> Prop) `{!forall x, Decision (P x)} l :
  NoDupA Qeq l -> NoDupA Qeq (filter P l).
Proof.
  induction 1 as [|x l Hx Hl IH]; [constructor|].
  rewrite filter_cons. case_decide; [|done].
  constructor; [|done]. intros Hin. by apply Hx, (InA_filter P).
Qed.

Lemma NoDupA_Permutation l l' : l ≡ₚ l' -> NoDupA Qeq l -> NoDupA Qeq l'.
Proof.
  intros Hp Hl.
  eapply (PermutationA_preserves_NoDupA Q_Setoid); [|done].
  by apply (Permutation_PermutationA Q_Setoid).
Qed.

Lemma StronglySorted_strict l :
  StronglySorted Qle l -> NoDupA Qeq l -> StronglySorted Qlt l.
Proof.
  induction 1 as [|x l Hl IH Hx]; intros Hnd; [constructor|].
  inversion_clear Hnd as [|? ? Hnin Hnd'].
  constructor; [by apply IH|].
  rewrite Forall_forall in Hx |- *. intros y Hy.
  destruct (proj1 (Qle_lteq _ _) (Hx y Hy)) as [?|Heq]; [done|].
  destruct Hnin. apply InA_alt. exists y. split; [done|by apply list_elem_of_In].
Qed.

Lemma sortBy_Permutation l : sortBy l ≡ₚ l.
Proof. apply merge_sort_Permutation. Qed.

Lemma sortBy_sorted l : StronglySorted Qle (sortBy l).
Proof. apply (StronglySorted_merge_sort Qle). Qed.

Lemma sortBy_strict l : NoDupA Qeq l -> StronglySorted Qlt (sortBy l).
Proof.
  intros Hl. apply StronglySorted_strict; [apply sortBy_sorted|].
  eapply NoDupA_Permutation; [symmetry; apply sortBy_Permutation|done].
Qed.
End NumberLists.

(** ** The size list of [fluid] *)

Ltac qlra :=
  unfold Qdiv in *;
  repeat match goal with
         | |- context [(/ ?c)%Q] => let c' := eval cbv in (/ c)%Q in change (/ c)%Q with c'
         | H : context [(/ ?c)%Q] |- _ => let c' := eval cbv in (/ c)%Q in change (/ c)%Q with c' in H
         end;
  lra.

Section FluidSizes.
Implicit Types (l fs : list Q) (x y : Q) (b bp : Z) (o : Options.t) (md : Dimensions.t).

Lemma NoDupA_elem_eq l x y :
  NoDupA Qeq l -> x ∈ l -> y ∈ l -> (x == y)%Q -> x = y.
Proof.
  induction 1 as [|z l Hz Hl IH]; intros Hx Hy Hxy; [by apply elem_of_nil in Hx|].
  apply elem_of_cons in Hx as [->|Hx]; apply elem_of_cons in Hy as [->|Hy]; auto.
  - destruct Hz. apply InA_alt. exists y. split; [done|by apply list_elem_of_In].
  - destruct Hz. apply InA_alt. exists x. split; [by symmetry|by apply list_elem_of_In].
Qed.

Lemma elem_of_InA l x : x ∈ l -> InA Qeq x l.
Proof. intros Hx. apply InA_alt. exists x. split; [reflexivity|by apply list_elem_of_In]. Qed.

Lemma InA_elem_of l x : InA Qeq x l -> exists y, y ∈ l /\ (x == y)%Q.
Proof. rewrite InA_alt. intros (y & ? & ?). exists y. by rewrite list_elem_of_In. Qed.

(** The standard breakpoints of a base that is not zero are five
    different numbers. *)
Lemma standard_NoDupA b :
  b <> 0 ->
  let q := inject_Z b in
  NoDupA Qeq [q; q / 4; q / 2; q * 1.5; q * 2]%Q.
Proof.
  intros Hb q.
  assert (Hq : ~ (q == 0)%Q).
  { unfold q, Qeq. simpl. lia. }
  clearbody q.
  repeat (constructor;
    [rewrite ?InA_cons, InA_nil; intros H;
     repeat destruct H as [H|H]; try done; apply Hq; qlra|]).
  constructor.
Qed.

Lemma includes_false l x : includes l x = false <-> ~ InA Qeq x l.
Proof. rewrite <- includes_InA. by destruct (includes l x). Qed.


Lemma pushBreakpoints_Thrown fs bps e :
  pushBreakpoints fs bps = Thrown e ->
  exists bp, e = BreakpointError bp /\ bp ∈ bps /\ bp < 1.
Proof.
  revert fs. induction bps as [|bp bps IH]; intros fs; simpl; [done|].
  destruct (Z.ltb_spec bp 1).
  - intros [= <-]. exists bp. split_and!; [done|apply list_elem_of_here|done].
  - destruct (includes fs _); intros (bp' & ? & ? & ?)%IH;
      exists bp'; split_and!; try done; by apply list_elem_of_further.
Qed.

Lemma pushBreakpoints_inv fs bps l :
  pushBreakpoints fs bps = Returned l ->
  Forall (fun bp => 1 <= bp) bps /\
  (NoDupA Qeq fs -> NoDupA Qeq l) /\
  (forall x, InA Qeq x l <-> InA Qeq x fs \/ exists bp, bp ∈ bps /\ (x == inject_Z bp)%Q) /\
  fs `prefix_of` l.
Proof.
  revert fs. induction bps as [|bp bps IH]; intros fs; simpl.
  - intros [= <-]. split_and!; [constructor|done| |done].
    intros x. split; [by left|]. intros [?|(bp & []%elem_of_nil & _)]. done.
  - destruct (Z.ltb_spec bp 1); [done|].
    destruct (includes fs (inject_Z bp)) eqn:Hinc; intros (Hall & Hnd & Hin & Hpre)%IH.
    + apply includes_InA in Hinc.
      split_and!; [by constructor|done| |done].
      intros x. rewrite Hin. split.
      * intros [?|(bp' & ? & ?)]; [by left|]. right. exists bp'. split; [by apply list_elem_of_further|done].
      * intros [?|(bp' & [->|?]%elem_of_cons & Hx)]; [by left| |].
        -- left. by rewrite Hx.
        -- right. by exists bp'.
    + apply includes_false in Hinc.
      split_and!; [by constructor| | |].
      * intros Hfs. apply Hnd. apply NoDupA_app; [apply Q_Setoid|done| |].
        -- constructor; [intros H'; by apply InA_nil in H'|constructor].
        -- intros x Hx Hx'. apply Hinc. rewrite InA_cons, InA_nil in Hx'. 
           destruct Hx' as [Hx'|[]]. by rewrite <- Hx'.
      * intros x. rewrite Hin, InA_app_iff, InA_cons, InA_nil. split.
        -- intros [[?|[?|[]]]|(bp' & ? & ?)]; [by left| |].
           ++ right. exists bp. split; [apply list_elem_of_here|done].
           ++ right. exists bp'. split; [by apply list_elem_of_further|done].
        -- intros [?|(bp' & [->|?]%elem_of_cons & Hx)]; [by left;left| |].
           ++ left. right. by left.
           ++ right. by exists bp'.
      * etrans; [|done]. by apply prefix_app_r.
Qed.

Lemma findIndex_spec {A} (p : A -> bool) (xs : list A) :
  (findIndex p xs = -1 /\ Forall (fun a => p a = false) xs) \/
  (exists (i : nat) a, findIndex p xs = Z.of_nat i /\ xs !! i = Some a /\ p a = true).
Proof.
  induction xs as [|a xs IH]; simpl; [left; by split|].
  destruct (p a) eqn:Hp; [right; by exists 0%nat, a|].
  destruct IH as [[-> Hall]|(i & a' & -> & Hi & Hy)].
  - left. split; [done|by constructor].
  - right. exists (S i), a'. destruct (Z.ltb_spec (Z.of_nat i) 0); [lia|].
    split_and!; [lia|done|done].
Qed.

Lemma fluid_filteredSizes_inv o md l :
  fluid_filteredSizes o md = Returned l ->
  (forall b, fluid_base o = Some b -> 1 <= b) /\
  exists fs, fluidSizes o = Returned fs /\
    l = sortBy (filter (fun size => size < inject_Z (fluid_intrinsic o md))%Q fs
                ++ [inject_Z (fluid_intrinsic o md)]).
Proof.
  unfold fluid_filteredSizes, fluid_base, fluid_intrinsic.
  destruct (fluid_option o _) as [v|] eqn:Hv.
  - destruct (Z.ltb_spec v 1); [done|]. simpl.
    destruct (fluidSizes o) as [fs|]; [|done]. simpl. intros [= <-].
    split; [by intros ? [= <-]|]. by exists fs.
  - simpl. destruct (fluidSizes o) as [fs|]; [|done]. simpl. intros [= <-].
    split; [done|]. by exists fs.
Qed.

Lemma fluid_filteredSizes_Returned o md fs :
  (forall b, fluid_base o = Some b -> 1 <= b) ->
  fluidSizes o = Returned fs ->
  fluid_filteredSizes o md =
    Returned (sortBy (filter (fun size => size < inject_Z (fluid_intrinsic o md))%Q fs
                      ++ [inject_Z (fluid_intrinsic o md)])).
Proof.
  unfold fluid_filteredSizes, fluid_base, fluid_intrinsic. intros Hb ->.
  destruct (fluid_option o _) as [v|]; [|done].
  specialize (Hb v eq_refl). by destruct (Z.ltb_spec v 1); [lia|].
Qed.

Lemma fluid_filteredSizes_Thrown o md e :
  fluid_filteredSizes o md = Thrown e ->
  (exists b, fluid_base o = Some b /\ b < 1 /\
     e = DimensionError (FluidDimension_name (fluid_fixedDimension o)) b) \/
  ((forall b, fluid_base o = Some b -> 1 <= b) /\ fluidSizes o = Thrown e).
Proof.
  unfold fluid_filteredSizes, fluid_base.
  destruct (fluid_option o _) as [v|] eqn:Hv.
  - destruct (Z.ltb_spec v 1).
    + intros [= <-]. left. by exists v.
    + simpl. destruct (fluidSizes o); [done|]. simpl. intros [= <-]. right.
      split; [by intros ? [= <-]|done].
  - simpl. destruct (fluidSizes o); [done|]. simpl. intros [= <-]. by right.
Qed.

Lemma fluidSizes_NoDupA o fs :
  (forall b, fluid_base o = Some b -> b <> 0) ->
  fluidSizes o = Returned fs -> NoDupA Qeq fs.
Proof.
  unfold fluidSizes, fluid_base. intros Hb.
  assert (Hstd : NoDupA Qeq
    match fluid_option o (fluid_fixedDimension o) with
    | Some b => let b := inject_Z b in [b; b / 4; b / 2; b * 1.5; b * 2]%Q
    | None => []
    end).
  { destruct (fluid_option o _) as [b|]; [|constructor]. by apply standard_NoDupA, Hb. }
  destruct (Options.srcSetBreakpoints o) as [[|bp bps]|]; try by intros [= <-].
  intros (_ & Hnd & _)%pushBreakpoints_inv. apply Hnd.
  destruct (fluid_option o _); [|constructor].
  constructor; [intros H; by apply InA_nil in H|constructor].
Qed.

Lemma fluidSizes_base o fs b :
  fluid_base o = Some b -> fluidSizes o = Returned fs -> inject_Z b ∈ fs.
Proof.
  unfold fluidSizes, fluid_base. intros ->.
  destruct (Options.srcSetBreakpoints o) as [[|bp bps]|].
  - intros [= <-]. apply list_elem_of_here.
  - intros (_ & _ & _ & [k ->])%pushBreakpoints_inv. apply list_elem_of_here.
  - intros [= <-]. apply list_elem_of_here.
Qed.

(** What filtering, appending the intrinsic size and sorting make of a
    list of different numbers. *)
Lemma filtered_sorted fs (bound : Q) :
  NoDupA Qeq fs ->
  let l := sortBy (filter (fun size => size < bound)%Q fs ++ [bound]) in
  StronglySorted Qlt l /\ NoDupA Qeq l /\
  (forall x, x ∈ l <-> (x ∈ fs /\ (x < bound)%Q) \/ x = bound) /\
  last l = Some bound.
Proof.
  intros Hfs l.
  assert (Hnd : NoDupA Qeq (filter (fun size => size < bound)%Q fs ++ [bound])).
  { apply NoDupA_app; [apply Q_Setoid|by apply NoDupA_filter| |].
    - constructor; [intros H; by apply InA_nil in H|constructor].
    - intros x (y & Hy & Hxy)%InA_elem_of Hx.
      apply list_elem_of_filter in Hy as [Hy _].
      rewrite InA_cons, InA_nil in Hx. destruct Hx as [Hx|[]]. lra. }
  assert (Hin : forall x, x ∈ l <-> (x ∈ fs /\ (x < bound)%Q) \/ x = bound).
  { intros x. unfold l. rewrite sortBy_Permutation, elem_of_app, list_elem_of_filter,
      list_elem_of_singleton. tauto. }
  assert (Hs : StronglySorted Qlt l) by by apply sortBy_strict.
  split_and!; [done| |done|].
  { eapply NoDupA_Permutation; [symmetry; apply sortBy_Permutation|done]. }
  destruct (last l) as [z|] eqn:Hz.
  - apply last_Some in Hz as [l' Hl']. f_equal.
    assert (Hzl : z ∈ l) by (rewrite Hl'; apply elem_of_app; right; apply list_elem_of_here).
    assert (Hbl : bound ∈ l) by (apply Hin; by right).
    rewrite Hl' in Hs, Hbl. apply StronglySorted_app in Hs as (Hlt & _ & _).
    apply Hin in Hzl as [[_ Hzb]|]; [|done].
    apply elem_of_app in Hbl as [Hbl|Hbl%list_elem_of_singleton]; [|done].
    specialize (Hlt bound z Hbl (list_elem_of_here _ _)). lra.
  - apply last_None in Hz. assert (bound ∈ l) as Hbl by (apply Hin; by right).
    rewrite Hz in Hbl. by apply elem_of_nil in Hbl.
Qed.
End FluidSizes.

(** ** The claims on the size list *)

Section FluidClaims.
Implicit Types (l fs : list Q) (b bp : Z) (o : Options.t) (md : Dimensions.t).

Lemma fluidSizes_standard o b :
  standard_breakpoints o -> fluid_base o = Some b ->
  fluidSizes o =
    Returned (let q := inject_Z b in [q; q / 4; q / 2; q * 1.5; q * 2]%Q).
Proof. unfold fluidSizes. by intros [->| ->] ->. Qed.

Lemma fluid_filteredSizes_standard o md b :
  standard_breakpoints o -> fluid_base o = Some b -> 1 <= b ->
  fluid_filteredSizes o md =
    Returned (sortBy
      (filter (fun size => size < inject_Z (fluid_intrinsic o md))%Q
         (let q := inject_Z b in [q; q / 4; q / 2; q * 1.5; q * 2]%Q)
       ++ [inject_Z (fluid_intrinsic o md)])).
Proof.
  intros Hstd Hb Hpos. apply fluid_filteredSizes_Returned.
  - intros b' Hb'. congruence.
  - by apply fluidSizes_standard.
Qed.

(** Claim C1, amended.  With the standard breakpoints and a positive base
    value, [fluid] plans a list of sizes that holds the base value capped
    at the intrinsic size (the base value itself whenever it does not
    exceed the source) and the intrinsic size, holds no number twice, and
    ascends strictly.  For a base of 800 and an intrinsic size of 1600 the
    list is 200, 400, 800, 1200, 1600. *)
Theorem fluid_standard_sizes o md b :
  standard_breakpoints o -> fluid_base o = Some b -> 0 < b ->
  exists l, fluid_filteredSizes o md = Returned l /\
    inject_Z (Z.min b (fluid_intrinsic o md)) ∈ l /\
    inject_Z (fluid_intrinsic o md) ∈ l /\
    NoDupA Qeq l /\ StronglySorted Qlt l /\
    (b = 800 -> fluid_intrinsic o md = 1600 ->
     Forall2 Qeq l [200; 400; 800; 1200; 1600]%Q).
Proof.
  intros Hstd Hb Hpos. eexists. split; [apply fluid_filteredSizes_standard; [done..|lia]|].
  set (q := inject_Z b). set (bound := inject_Z (fluid_intrinsic o md)).
  destruct (filtered_sorted [q; q / 4; q / 2; q * 1.5; q * 2]%Q bound)
    as (Hs & Hnd & Hin & Hlast).
  { apply standard_NoDupA. lia. }
  split_and!; try done.
  - apply Hin. destruct (Z.min_spec b (fluid_intrinsic o md)) as [[Hlt ->]|[Hle ->]].
    + left. split; [apply list_elem_of_here|]. unfold q, bound. rewrite <- Zlt_Qlt. done.
    + by right.
  - apply Hin. by right.
  - intros -> Hi. unfold bound, q. rewrite Hi. vm_compute. 
    repeat constructor.
Qed.

Lemma fluid_filteredSizes_facts o md l :
  fluid_filteredSizes o md = Returned l ->
  (forall b, fluid_base o = Some b -> 1 <= b) /\
  exists fs, fluidSizes o = Returned fs /\ NoDupA Qeq fs /\
    l = sortBy (filter (fun size => size < inject_Z (fluid_intrinsic o md))%Q fs
                ++ [inject_Z (fluid_intrinsic o md)]) /\
    StronglySorted Qlt l /\ NoDupA Qeq l /\
    (forall x, x ∈ l <->
       (x ∈ fs /\ (x < inject_Z (fluid_intrinsic o md))%Q) \/
       x = inject_Z (fluid_intrinsic o md)) /\
    last l = Some (inject_Z (fluid_intrinsic o md)).
Proof.
  intros (Hb & fs & Hfs & ->)%fluid_filteredSizes_inv. split; [done|].
  assert (Hnd : NoDupA Qeq fs).
  { eapply fluidSizes_NoDupA; [|done]. intros b Hb'%Hb. lia. }
  exists fs. split_and!; try done; by apply filtered_sorted.
Qed.

(** Claim C2, amended.  When the base value is at least the intrinsic
    size, no size beyond the source is planned: the intrinsic size is the
    last and largest element, and the base value is in the list only if it
    is the intrinsic size.  Smaller candidates stay: with the standard
    breakpoints the list is the intrinsic size alone exactly when the base
    value is at least four times the intrinsic size. *)
Theorem fluid_no_upscaling o md b l :
  fluid_base o = Some b -> fluid_intrinsic o md <= b ->
  fluid_filteredSizes o md = Returned l ->
  last l = Some (inject_Z (fluid_intrinsic o md)) /\
  Forall (fun size => size <= inject_Z (fluid_intrinsic o md))%Q l /\
  (forall size, size ∈ l -> (size == inject_Z b)%Q -> b = fluid_intrinsic o md) /\
  (standard_breakpoints o ->
   (l = [inject_Z (fluid_intrinsic o md)] <-> 4 * fluid_intrinsic o md <= b)).
Proof.
  intros Hb Hle Hl.
  destruct (fluid_filteredSizes_facts _ _ _ Hl)
    as (Hpos & fs & Hfs & Hnd & -> & Hs & Hndl & Hin & Hlast).
  specialize (Hpos b Hb).
  set (bound := inject_Z (fluid_intrinsic o md)) in *. set (q := inject_Z b).
  assert (Hq : (bound <= q)%Q) by (unfold bound, q; by rewrite <- Zle_Qle).
  assert (Hq1 : (1 <= q)%Q) by (unfold q; change 1%Q with (inject_Z 1); by rewrite <- Zle_Qle).
  split_and!; [done| | |].
  - apply Forall_forall. intros x [[_ Hx]| ->]%Hin; lra.
  - intros x [[_ Hx]| ->]%Hin Hxb; [fold q in Hxb; lra|].
    symmetry. by apply inject_Z_injective.
  - intros Hstd. rewrite (fluidSizes_standard o b Hstd Hb) in Hfs.
    injection Hfs as <-. fold q.
    assert (H4 : (4 * bound <= q)%Q <-> 4 * fluid_intrinsic o md <= b).
    { unfold bound, q. rewrite Zle_Qle, inject_Z_mult. done. }
    rewrite <- H4. split.
    + intros Heq.
      assert (Hlen : length (filter (fun size => size < bound)%Q
                       [q; q / 4; q / 2; q * 1.5; q * 2]%Q) = 0%nat).
      { apply (f_equal length) in Heq. rewrite sortBy_Permutation, length_app in Heq.
        simpl in Heq. lia. }
      apply nil_length_inv in Hlen.
      destruct (Qlt_le_dec (q / 4) bound) as [Hlt|Hge]; [|qlra].
      destruct (filter_nil_not_elem_of _ _ _ Hlen Hlt).
      apply list_elem_of_further, list_elem_of_here.
    + intros Hge. rewrite !filter_cons_False, filter_nil by qlra. done.
Qed.
End FluidClaims.

(** ** The whole call of [fluid] *)

Section FluidCall.
Variable createTransformObject : Options.t -> Args.t.
Variable createArgsDigest : Args.t -> string.
Variable getDimensionsAndAspectRatio : option Dimensions.t -> Args.t -> Size.t.
Variable encodeURIComponent : string -> string.

Local Abbreviation fluid_images' :=
  (fluid_images createTransformObject createArgsDigest getDimensionsAndAspectRatio
     encodeURIComponent).
Local Abbreviation fluid' :=
  (fluid createTransformObject createArgsDigest getDimensionsAndAspectRatio
     encodeURIComponent).

Implicit Types (l fs : list Q) (b bp : Z) (o : Options.t) (md : Dimensions.t)
  (file : File.t).

Lemma fluid_densityOne_Some o md b :
  fluid_base o = Some b -> b <> 0 ->
  fluid_densityOne o md = Some (Z.min b (fluid_intrinsic o md)).
Proof.
  unfold fluid_base, fluid_densityOne, fluid_intrinsic, fluid_fixedDimension.
  destruct (Options.maxWidth o) as [w|] eqn:Hw; simpl; intros Hb Hnz.
  - rewrite Hw in Hb. injection Hb as ->. simpl.
    by destruct (Z.eqb_spec b 0).
  - rewrite Hb. simpl. by destruct (Z.eqb_spec b 0).
Qed.

Lemma fluid_densityOne_None o md :
  fluid_base o = None -> fluid_densityOne o md = None.
Proof.
  unfold fluid_base, fluid_densityOne, fluid_fixedDimension.
  destruct (Options.maxWidth o) as [w|] eqn:Hw; simpl; [by rewrite Hw|by intros ->].
Qed.

Lemma fluid_images_lookup file o md l (i : nat) :
  fluid_images' file o md l !! i =
    (fun size =>
       prepareQueue createArgsDigest getDimensionsAndAspectRatio encodeURIComponent file
         (fluid_transform createTransformObject o
            (capped (Options.maxWidth o) (Dimensions.width md))
            (capped (Options.maxHeight o) (Dimensions.height md)) size)) <$> l !! i.
Proof.
  unfold fluid_images, batchQueueImageResizing, fluid_transforms.
  by rewrite !list_lookup_fmap, <- option_fmap_compose.
Qed.

(** The density-one lookup finds the capped base value. *)
Lemma fluid_index o md l b :
  fluid_base o = Some b -> fluid_filteredSizes o md = Returned l ->
  exists i : nat,
    fluid_imageWithDensityOneIndex o md l = Z.of_nat i /\
    l !! i = Some (inject_Z (Z.min b (fluid_intrinsic o md))).
Proof.
  intros Hb Hl.
  destruct (fluid_filteredSizes_facts _ _ _ Hl)
    as (Hpos & fs & Hfs & Hnd & -> & Hs & Hndl & Hin & Hlast).
  specialize (Hpos b Hb).
  set (l := sortBy _) in *.
  assert (Hmin : inject_Z (Z.min b (fluid_intrinsic o md)) ∈ l).
  { apply Hin. destruct (Z.min_spec b (fluid_intrinsic o md)) as [[Hlt ->]|[Hle ->]].
    - left. split; [by eapply fluidSizes_base|by rewrite <- Zlt_Qlt].
    - by right. }
  unfold fluid_imageWithDensityOneIndex.
  rewrite (fluid_densityOne_Some o md b) by (done || lia).
  destruct (findIndex_spec
    (fun size => same_number size (Some (Z.min b (fluid_intrinsic o md)))) l)
    as [[_ Hall]|(i & a & Hi & Hli & Ha)].
  - rewrite Forall_forall in Hall. specialize (Hall _ Hmin). simpl in Hall.
    apply bool_decide_eq_false in Hall. by destruct Hall.
  - exists i. split; [done|]. rewrite Hli. f_equal.
    simpl in Ha. apply bool_decide_eq_true in Ha.
    apply (NoDupA_elem_eq l); [done| |done..]. by eapply list_elem_of_lookup_2.
Qed.

Lemma fluid_index_missing o md l :
  fluid_base o = None -> fluid_imageWithDensityOneIndex o md l = -1.
Proof.
  intros Hb. unfold fluid_imageWithDensityOneIndex.
  rewrite fluid_densityOne_None by done.
  by destruct (findIndex_spec (fun size => same_number size None) l)
    as [[-> _]|(i & a & _ & _ & Ha)].
Qed.

Lemma fluid_Returned file o md l b :
  fluid_base o = Some b -> fluid_filteredSizes o md = Returned l ->
  exists (i : nat) image first,
    l !! i = Some (inject_Z (Z.min b (fluid_intrinsic o md))) /\
    fluid_images' file o md l !! i = Some image /\
    fluid_images' file o md l !! 0%nat = Some first /\
    fluid' file o (Some md) = Returned (Some
      {| Fluid.aspectRatio := Image.aspectRatio first;
         Fluid.srcSet :=
           join comma_newline
             (map (fun image =>
                     Image.src image +:+ " " +:+ pretty (Image.width image) +:+ "w")
                (fluid_images' file o md l));
         Fluid.sizes := or_else (Options.sizes o) (default_sizes (Image.width image));
         Fluid.originalName := File.base file;
         Fluid.presentationWidth := Image.width image;
         Fluid.presentationHeight := Image.height image |}).
Proof.
  intros Hb Hl. destruct (fluid_index o md l b Hb Hl) as (i & Hi & Hli).
  assert (exists image, fluid_images' file o md l !! i = Some image) as [image Him].
  { rewrite fluid_images_lookup, Hli. by eexists. }
  assert (exists first, fluid_images' file o md l !! 0%nat = Some first) as [first Hfirst].
  { rewrite fluid_images_lookup. destruct l; [by rewrite lookup_nil in Hli|by eexists]. }
  exists i, image, first. split_and!; try done.
  unfold fluid. rewrite Hl. simpl. rewrite Hi. unfold at_index.
  destruct (Z.ltb_spec (Z.of_nat i) 0); [lia|]. rewrite Nat2Z.id.
  fold (fluid_images' file o md l). by rewrite Him, Hfirst.
Qed.

Lemma fluidSizes_Thrown o e :
  fluidSizes o = Thrown e ->
  exists bps bp, Options.srcSetBreakpoints o = Some bps /\ bp ∈ bps /\ bp < 1 /\
    e = BreakpointError bp.
Proof.
  unfold fluidSizes. destruct (Options.srcSetBreakpoints o) as [[|bp0 bps]|]; try done.
  intros (bp & -> & ? & ?)%pushBreakpoints_Thrown. by exists (bp0 :: bps), bp.
Qed.

(** Claim C10.  With a base option of at least 1, the search for the
    density-one size succeeds on every list of sizes [fluid] plans: the
    index it answers is a position of the list, the size there is the base
    value capped at the intrinsic size, the images have an element at that
    index, and the call never throws a [TypeError]. *)
Theorem fluid_density_one_found file o md b :
  fluid_base o = Some b -> 1 <= b ->
  (forall l, fluid_filteredSizes o md = Returned l ->
     exists i : nat,
       fluid_imageWithDensityOneIndex o md l = Z.of_nat i /\
       l !! i = Some (inject_Z (Z.min b (fluid_intrinsic o md))) /\
       is_Some (at_index (fluid_images' file o md l)
                  (fluid_imageWithDensityOneIndex o md l))) /\
  fluid' file o (Some md) <> Thrown TypeError.
Proof.
  intros Hb Hpos. split.
  - intros l Hl. destruct (fluid_index o md l b Hb Hl) as (i & Hi & Hli).
    exists i. split_and!; [done..|]. rewrite Hi. unfold at_index.
    destruct (Z.ltb_spec (Z.of_nat i) 0); [lia|]. rewrite Nat2Z.id.
    rewrite fluid_images_lookup, Hli. by eexists.
  - destruct (fluid_filteredSizes o md) as [l|e] eqn:Hl.
    + destruct (fluid_Returned file o md l b Hb Hl) as (? & ? & ? & _ & _ & _ & ->). done.
    + unfold fluid. rewrite Hl. simpl.
      apply fluid_filteredSizes_Thrown in Hl as [(? & _ & _ & ->)|[_ Hfs]]; [done|].
      by apply fluidSizes_Thrown in Hfs as (? & ? & _ & _ & _ & ->).
Qed.


(** Claim C7.  The [sizes] of the answer of [fluid] is the [sizes] option
    when the caller gave one (a string that is not empty: [||] takes the
    empty string for a missing one), and otherwise
    [(max-width: Wpx) 100vw, Wpx] for the presentation width [W], which is
    the width of the image planned for the size equal to the base value
    capped at the intrinsic size. *)
Theorem fluid_sizes_attribute file o md r :
  fluid' file o (Some md) = Returned (Some r) ->
  (forall s, Options.sizes o = Some s -> s <> EmptyString -> Fluid.sizes r = s) /\
  (Options.sizes o = None \/ Options.sizes o = Some EmptyString ->
   Fluid.sizes r =
     "(max-width: " +:+ pretty (Fluid.presentationWidth r) +:+ "px) 100vw, "
     +:+ pretty (Fluid.presentationWidth r) +:+ "px") /\
  exists b l (i : nat) image,
    fluid_base o = Some b /\ fluid_filteredSizes o md = Returned l /\
    l !! i = Some (inject_Z (Z.min b (fluid_intrinsic o md))) /\
    fluid_images' file o md l !! i = Some image /\
    Fluid.presentationWidth r = Image.width image /\
    Fluid.presentationHeight r = Image.height image.
Proof.
  intros Hr.
  destruct (fluid_filteredSizes o md) as [l|e] eqn:Hl;
    [|by (unfold fluid in Hr; rewrite Hl in Hr)].
  destruct (fluid_base o) as [b|] eqn:Hb.
  - destruct (fluid_Returned file o md l b Hb Hl) as (i & image & first & Hli & Him & _ & Hr').
    rewrite Hr' in Hr. injection Hr as <-. simpl. split_and!.
    + intros s -> Hs. simpl. by destruct (String.eqb_spec s EmptyString).
    + by intros [->| ->].
    + by exists b, l, i, image.
  - unfold fluid in Hr. rewrite Hl in Hr. simpl in Hr.
    rewrite fluid_index_missing in Hr by done. done.
Qed.
End FluidCall.

(** ** Transform objects, and [fixed] *)

Lemma Math_round_inject_Z z : Math_round (inject_Z z) = z.
Proof.
  unfold Math_round. set (f := Qfloor _).
  assert (H1 := Qfloor_le (inject_Z z + (1 # 2))).
  assert (H2 := Qlt_floor (inject_Z z + (1 # 2))). fold f in H1, H2.
  assert (f < z + 1) by (rewrite Zlt_Qlt, inject_Z_plus; change (inject_Z 1) with 1%Q; lra).
  assert (z < f + 1) by (rewrite Zlt_Qlt; lra).
  lia.
Qed.

Section Transforms.
Variable createTransformObject : Options.t -> Args.t.
Variable createArgsDigest : Args.t -> string.
Variable getDimensionsAndAspectRatio : option Dimensions.t -> Args.t -> Size.t.
Variable encodeURIComponent : string -> string.

Local Abbreviation fluid_transforms' := (fluid_transforms createTransformObject).
Local Abbreviation fixed_transforms' := (fixed_transforms createTransformObject).
Local Abbreviation fixed_transform' := (fixed_transform createTransformObject).
Local Abbreviation prepareQueue' :=
  (prepareQueue createArgsDigest getDimensionsAndAspectRatio encodeURIComponent).
Local Abbreviation fixed' :=
  (fixed createTransformObject createArgsDigest getDimensionsAndAspectRatio
     encodeURIComponent).

Implicit Types (l : list Q) (o : Options.t) (md dims : Dimensions.t) (file : File.t).


Lemma fixed_transform_fixed_argument o size :
  fixed_argument (fixed_transform' o size) (fixed_fixedDimension o) =
    Int (Math_round size).
Proof.
  unfold fixed_transform, fixed_fixedDimension.
  destruct (Options.width o) as [w|]; simpl;
    destruct (Options.height o) as [h|], (Options.pathPrefix o) as [p|];
    try destruct (String.eqb p EmptyString); done.
Qed.

(** Claim C4.  When no candidate of [fixed] passes the filter, the call
    returns: there is exactly one transform, its size on the fixed axis is
    the intrinsic size, and one warning is written. *)
Theorem fixed_larger_than_image file o dims :
  File.dimensions file = Some dims ->
  filter (fun size => size <= inject_Z (fixed_dimension_of dims (fixed_fixedDimension o)))%Q
    (fixed_sizes o) = [] ->
  exists t r,
    fixed_transforms' file o dims = [t] /\
    fixed_argument t (fixed_fixedDimension o) =
      Int (fixed_dimension_of dims (fixed_fixedDimension o)) /\
    fixed' file o =
      Returned (r, [LargerThanImage (fixed_fixedDimension o)
                      (fixed_option o (fixed_fixedDimension o))
                      (File.absolutePath file)
                      (fixed_dimension_of dims (fixed_fixedDimension o))]).
Proof.
  intros Hdims Hempty.
  assert (Hfs : fixed_filteredSizes file o dims =
    ([inject_Z (fixed_dimension_of dims (fixed_fixedDimension o))],
     [LargerThanImage (fixed_fixedDimension o)
        (fixed_option o (fixed_fixedDimension o)) (File.absolutePath file)
        (fixed_dimension_of dims (fixed_fixedDimension o))])).
  { unfold fixed_filteredSizes. by rewrite Hempty. }
  assert (Ht : fixed_transforms' file o dims =
    [fixed_transform' o (inject_Z (fixed_dimension_of dims (fixed_fixedDimension o)))]).
  { unfold fixed_transforms. by rewrite Hfs. }
  eexists _, _. split_and!; [done| |].
  - by rewrite fixed_transform_fixed_argument, Math_round_inject_Z.
  - unfold fixed. rewrite Hdims, Ht, Hfs. simpl. done.
Qed.

Lemma imap_resolution {A} (f : A -> string) (xs : list A) :
  (length xs <= 3)%nat ->
  imap (fun i a => f a +:+ " " +:+ resolution i) xs =
    zip_with (fun a label => f a +:+ " " +:+ label) xs ["1x"; "1.5x"; "2x"].
Proof.
  destruct xs as [|a [|b [|c [|d xs]]]]; simpl; try done. lia.
Qed.

Lemma fixed_filteredSizes_length file o dims :
  (1 <= length (fixed_filteredSizes file o dims).1 <= 3)%nat.
Proof.
  unfold fixed_filteredSizes.
  set (P := fun size : Q => (size <= _)%Q).
  assert (length (filter P (fixed_sizes o)) <= 3)%nat.
  { etrans; [apply length_filter|]. unfold fixed_sizes.
    destruct (fixed_option o _); simpl; lia. }
  destruct (Nat.eqb_spec (length (filter P (fixed_sizes o))) 0) as [Hz|Hnz]; simpl.
  - rewrite length_app, Hz. simpl. lia.
  - lia.
Qed.

(** Claim C5.  The [srcSet] of [fixed] pairs the images, taken in the
    ascending order of the surviving sizes, with the labels [1x], [1.5x],
    [2x] by position, for one, two or three surviving sizes. *)
Theorem fixed_density_labels file o r ws :
  fixed' file o = Returned (r, ws) ->
  exists dims sizes,
    File.dimensions file = Some dims /\
    sizes = sortBy (fixed_filteredSizes file o dims).1 /\
    StronglySorted Qle sizes /\
    sizes ≡ₚ (fixed_filteredSizes file o dims).1 /\
    (1 <= length sizes <= 3)%nat /\
    Fixed.srcSet r =
      join comma_newline
        (zip_with
           (fun size label =>
              Image.src (prepareQueue' file (fixed_transform' o size)) +:+ " " +:+ label)
           sizes ["1x"; "1.5x"; "2x"]).
Proof.
  unfold fixed. destruct (File.dimensions file) as [dims|]; [|done].
  intros Hr. exists dims, (sortBy (fixed_filteredSizes file o dims).1).
  assert (Hlen : (1 <= length (sortBy (fixed_filteredSizes file o dims).1) <= 3)%nat).
  { rewrite sortBy_Permutation. apply fixed_filteredSizes_length. }
  split_and!; [done..|apply sortBy_sorted|apply sortBy_Permutation|lia|lia|].
  unfold batchQueueImageResizing, fixed_transforms in Hr.
  destruct (_ !! 0%nat); [|done]. injection Hr as <- _. simpl.
  rewrite <- list_fmap_compose, imap_fmap. 
  rewrite (imap_resolution (fun size => Image.src (prepareQueue' file (fixed_transform' o size))));
    [done|lia].
Qed.
End Transforms.

(** ** The directory provider *)

Section DirectoryProperties.
Variable path_join : string -> string -> string.
Variable ancestors : string -> list string.

Local Abbreviation makePath' := (makePath path_join).
Local Abbreviation read' := (read path_join).
Local Abbreviation ensureDir' := (ensureDir ancestors).
Local Abbreviation create' := (create path_join ancestors).

Implicit Types (fs : gmap string Node) (p q : string) (context : Context.t).

Lemma mkdir_Returned fs fs' p :
  mkdir fs p = Returned fs' ->
  fs' !! p = Some Directory /\
  forall q, fs !! q = Some Directory -> fs' !! q = Some Directory.
Proof.
  unfold mkdir. destruct (fs !! p) as [[]|] eqn:Hp; intros [= <-]; [done|].
  split; [apply lookup_insert_eq|]. intros q Hq.
  rewrite lookup_insert_ne; [done|]. intros ->. congruence.
Qed.

Lemma mkdirs_Returned fs fs' (paths : list string) :
  mkdirs fs paths = Returned fs' ->
  (forall q, q ∈ paths -> fs' !! q = Some Directory) /\
  forall q, fs !! q = Some Directory -> fs' !! q = Some Directory.
Proof.
  revert fs. induction paths as [|p paths IH]; intros fs; simpl.
  - intros [= <-]. split; [by intros q ?%elem_of_nil|done].
  - destruct (mkdir fs p) as [fs1|] eqn:H1; [|done]. simpl.
    apply mkdir_Returned in H1 as [Hp Hmono1].
    intros [Hall Hmono]%IH. split; [|by auto].
    intros q [->|?]%elem_of_cons; auto.
Qed.

Lemma ensureDir_Returned fs fs' p :
  ensureDir' fs p = Returned fs' -> fs' !! p = Some Directory.
Proof.
  unfold ensureDir. destruct (fs !! p) as [[]|] eqn:Hp; [by intros [= <-]|done|].
  intros [Hall _]%mkdirs_Returned. apply Hall, elem_of_app. right. apply list_elem_of_here.
Qed.

Lemma ensureDir_existing fs p :
  fs !! p = Some Directory -> ensureDir' fs p = Returned fs.
Proof. unfold ensureDir. by intros ->. Qed.

Lemma read_existing fs context id :
  fs !! makePath' (Context.root context) id = Some Directory ->
  read' fs context id =
    Returned (Some {| Resource.id := id; Resource.path := id;
                      Resource._message := message id |}).
Proof. unfold read, directoryExists, accessSync. by intros ->. Qed.


(** Claim C9.  [create] on a directory that exists succeeds, leaves the
    file system as it is and answers the resource of that path; and after
    a [create] that succeeded, the same [create] succeeds again with the
    same resource and the same file system. *)
Theorem create_idempotent fs context resource :
  (fs !! makePath path_join (Context.root context) (Descriptor.path resource) = Some Directory ->
   create path_join ancestors fs context resource =
     Returned (Some {| Resource.id := Descriptor.path resource;
                       Resource.path := Descriptor.path resource;
                       Resource._message := message (Descriptor.path resource) |},
               fs)) /\
  (forall r fs',
     create path_join ancestors fs context resource = Returned (r, fs') ->
     create path_join ancestors fs' context resource = Returned (r, fs')).
Proof.
  assert (Hexisting : forall fs0,
    fs0 !! makePath' (Context.root context) (Descriptor.path resource) = Some Directory ->
    create' fs0 context resource =
      Returned (Some {| Resource.id := Descriptor.path resource;
                        Resource.path := Descriptor.path resource;
                        Resource._message := message (Descriptor.path resource) |},
                fs0)).
  { intros fs0 H. unfold create. rewrite ensureDir_existing by done. simpl.
    by rewrite read_existing. }
  split; [apply Hexisting|].
  intros r fs' Hc. unfold create in Hc.
  destruct (ensureDir' fs _) as [fs1|] eqn:He; [|done]. simpl in Hc.
  apply ensureDir_Returned in He.
  rewrite read_existing in Hc by done. simpl in Hc. injection Hc as <- <-.
  by apply Hexisting.
Qed.
End DirectoryProperties.

(** * Examples *)

Section Examples.
Local Abbreviation fluid_example :=
  (fluid example_createTransformObject example_createArgsDigest
     example_getDimensionsAndAspectRatio example_encodeURIComponent).
Local Abbreviation fixed_example :=
  (fixed example_createTransformObject example_createArgsDigest
     example_getDimensionsAndAspectRatio example_encodeURIComponent).

(** Claim C1, counterexample: a [maxWidth] of 2000 on a source 1600 wide.
    The planned sizes are 500, 1000 and 1600, and 2000 is not among
    them. *)
Lemma fluid_base_above_source_dropped :
  standard_breakpoints (with_maxWidth 2000 example_options) /\
  fluid_base (with_maxWidth 2000 example_options) = Some 2000 /\
  exists l,
    fluid_filteredSizes (with_maxWidth 2000 example_options) example_metadata = Returned l /\
    Forall2 Qeq l [500; 1000; 1600]%Q /\
    ~ InA Qeq (inject_Z 2000) l.
Proof.
  split_and!; [by left|done|].
  eexists. split; [vm_compute; reflexivity|]. split; [repeat constructor|].
  rewrite !InA_cons, InA_nil. intros H. repeat destruct H as [H|H]; done.
Qed.

(** The example of claim C1: [maxWidth] 800 on a source 1600 wide. *)
Lemma fluid_standard_sizes_witness :
  standard_breakpoints (with_maxWidth 800 example_options) /\
  fluid_base (with_maxWidth 800 example_options) = Some 800 /\
  exists l,
    fluid_filteredSizes (with_maxWidth 800 example_options) example_metadata = Returned l /\
    Forall2 Qeq l [200; 400; 800; 1200; 1600]%Q /\
    StronglySorted Qlt l.
Proof.
  split_and!; [by left|reflexivity|].
  destruct (fluid_standard_sizes (with_maxWidth 800 example_options) example_metadata 800)
    as (l & Hl & _ & _ & _ & Hs & Hex); [by left|reflexivity|lia|].
  exists l. split_and!; [exact Hl|apply Hex; reflexivity|exact Hs].
Defined.

(** Claim C2, counterexample: a [maxWidth] equal to the width of the
    source.  Three sizes are planned, not one. *)
Lemma fluid_base_equal_source_keeps_smaller :
  fluid_base (with_maxWidth 1600 example_options) = Some 1600 /\
  fluid_intrinsic (with_maxWidth 1600 example_options) example_metadata = 1600 /\
  exists l,
    fluid_filteredSizes (with_maxWidth 1600 example_options) example_metadata = Returned l /\
    length l = 3%nat /\ Forall2 Qeq l [400; 800; 1600]%Q.
Proof.
  split_and!; [done..|]. eexists. split; [vm_compute; reflexivity|].
  split; [done|repeat constructor].
Qed.

(** Claim C2 on a [maxWidth] of 2000 and a source 1600 wide. *)
Lemma fluid_no_upscaling_witness :
  fluid_base (with_maxWidth 2000 example_options) = Some 2000 /\
  fluid_intrinsic (with_maxWidth 2000 example_options) example_metadata <= 2000 /\
  exists l,
    fluid_filteredSizes (with_maxWidth 2000 example_options) example_metadata = Returned l /\
    last l = Some (inject_Z 1600) /\
    Forall (fun size => size <= inject_Z 1600)%Q l.
Proof.
  split_and!; [reflexivity|by vm_compute|].
  eexists. split; [vm_compute; reflexivity|].
  destruct (fluid_no_upscaling (with_maxWidth 2000 example_options) example_metadata 2000
              [2000 # 4; 2000 # 2; inject_Z 1600]%Q)
    as (Hlast & Hall & _); [reflexivity|by vm_compute|by vm_compute|].
  split; [exact Hlast|exact Hall].
Defined.


(** Claim C4 on a [width] of 400 and a source 300 wide. *)
Lemma fixed_larger_than_image_witness :
  File.dimensions small_file = Some (Dimensions.mk 300 200) /\
  fixed_sizes (with_width 400 example_options) = [400; 400 * 1.5; 400 * 2]%Q /\
  exists t r,
    fixed_transforms example_createTransformObject small_file
      (with_width 400 example_options) (Dimensions.mk 300 200) = [t] /\
    Args.width t = Int 300 /\
    fixed_example small_file (with_width 400 example_options) =
      Returned (r, [LargerThanImage key_width (Some 400) "/site/src/images/icon.png" 300]).
Proof.
  split_and!; [reflexivity..|].
  destruct (fixed_larger_than_image example_createTransformObject example_createArgsDigest
              example_getDimensionsAndAspectRatio example_encodeURIComponent
              small_file (with_width 400 example_options) (Dimensions.mk 300 200))
    as (t & r & Ht & Harg & Hr); [reflexivity|by vm_compute|].
  exists t, r. split_and!; [exact Ht|exact Harg|exact Hr].
Defined.

(** Claim C5 on a [width] of 1000 and a source 1600 wide: two sizes
    survive. *)
Lemma fixed_density_labels_witness :
  exists r,
    fixed_example example_file (with_width 1000 example_options) = Returned (r, []) /\
    Fixed.srcSet r =
      "/static/0f9e8d/a1b2c/hero.jpg 1x" +:+ comma_newline +:+
      "/static/0f9e8d/a1b2c/hero.jpg 1.5x".
Proof.
  eexists. split; [vm_compute; reflexivity|].
  edestruct (fixed_density_labels example_createTransformObject example_createArgsDigest
              example_getDimensionsAndAspectRatio example_encodeURIComponent
              example_file (with_width 1000 example_options))
    as (dims & sizes & Hdims & -> & _ & _ & _ & Hset); [vm_compute; reflexivity|].
  injection Hdims as <-. simpl in Hset |- *. rewrite Hset. by vm_compute.
Defined.



(** Claim C7 on a [maxWidth] of 800, without a [sizes] option. *)
Lemma fluid_sizes_attribute_witness :
  exists r,
    fluid_example example_file (with_maxWidth 800 example_options) (Some example_metadata) =
      Returned (Some r) /\
    Options.sizes (with_maxWidth 800 example_options) = None /\
    Fluid.presentationWidth r = 800 /\
    Fluid.sizes r = "(max-width: 800px) 100vw, 800px".
Proof.
  eexists. split; [vm_compute; reflexivity|].
  edestruct (fluid_sizes_attribute example_createTransformObject example_createArgsDigest
               example_getDimensionsAndAspectRatio example_encodeURIComponent
               example_file (with_maxWidth 800 example_options) example_metadata)
    as (_ & Hdefault & _); [vm_compute; reflexivity|].
  split_and!; [reflexivity..|]. rewrite Hdefault; [by vm_compute|by left].
Defined.

(** Claim C10 on a [maxWidth] of 800 and a source 1600 wide. *)
Lemma fluid_density_one_found_witness :
  fluid_base (with_maxWidth 800 example_options) = Some 800 /\
  fluid_example example_file (with_maxWidth 800 example_options) (Some example_metadata)
    <> Thrown TypeError /\
  exists l (i : nat),
    fluid_filteredSizes (with_maxWidth 800 example_options) example_metadata = Returned l /\
    fluid_imageWithDensityOneIndex (with_maxWidth 800 example_options) example_metadata l =
      Z.of_nat i /\
    l !! i = Some (inject_Z 800).
Proof.
  destruct (fluid_density_one_found example_createTransformObject example_createArgsDigest
              example_getDimensionsAndAspectRatio example_encodeURIComponent
              example_file (with_maxWidth 800 example_options) example_metadata 800)
    as (Hfound & Hno); [reflexivity|lia|].
  split_and!; [reflexivity|exact Hno|].
  eexists. edestruct Hfound as (i & Hi & Hli & _); [vm_compute; reflexivity|].
  exists i. split_and!; [reflexivity|exact Hi|exact Hli].
Defined.


(** Claim C9: [create] twice, from an empty file system. *)
Lemma create_idempotent_witness :
  exists r fs',
    create example_path_join example_ancestors ∅ (Context.mk "/site")
      (Descriptor.mk "pages" "src/pages") = Returned (r, fs') /\
    fs' !! "/site/src/pages" = Some Directory /\
    create example_path_join example_ancestors fs' (Context.mk "/site")
      (Descriptor.mk "pages" "src/pages") = Returned (r, fs').
Proof.
  eexists _, _. split; [reflexivity|]. split; [by vm_compute|].
  apply (create_idempotent example_path_join example_ancestors ∅ (Context.mk "/site")
           (Descriptor.mk "pages" "src/pages")).
  reflexivity.
Defined.
End Examples.
